(** * mlworkflow / bokeh_utils / textarea.ts

  A shallow embedding of the multi-line text input widget
  ([TextArea] model, [TextAreaView] view) and of the part of the host
  plotting framework the widget talks to: the DOM construction helpers
  of [core/dom], the logger of [core/logging], the property system of
  [core/properties] and the hooks of the base class [InputWidgetView].

  The widget's own methods are state transformers over a [World] that holds
  the observed model, the store of DOM nodes, the view's fields and the
  trace of calls made into the host.  A call that the JavaScript runtime
  would abort (a missing node, a field read before it was assigned) yields
  a [Fault]. *)

From stdpp Require Import gmap strings list fin_maps.

(** ** The DOM nodes the widget builds *)

Module Dom.

(** The value of one entry of the attribute object handed to an element
    constructor: the source passes strings, a boolean and a style object. *)
Inductive AttrVal : Type :=
| AStr (s : string)
| ABool (b : bool)
| AStyle (decls : list (string * string)).

(** A handler registered with [addEventListener].  The only closure the
    source registers is [() => this.change_input()]. *)
Inductive Listener : Type :=
| CallChangeInput.

Inductive Child : Type :=
| CText (data : string)
| CNode (ref : nat).

Record Element : Type := mkElement {
  tag : string;
  attrs : list (string * AttrVal);
  children : list Child;
  (* what the user has entered since the element was created, if anything *)
  edited : option string;
  listeners : list (string * Listener)
}.

Definition with_children (cs : list Child) (e : Element) : Element :=
  mkElement (tag e) (attrs e) cs (edited e) (listeners e).

Definition with_edited (v : option string) (e : Element) : Element :=
  mkElement (tag e) (attrs e) (children e) v (listeners e).

Definition with_listeners (ls : list (string * Listener)) (e : Element) : Element :=
  mkElement (tag e) (attrs e) (children e) (edited e) ls.

(** [obj[k]] on an attribute object: the first entry named [k]. *)
Fixpoint assoc (k : string) (kvs : list (string * AttrVal)) : option AttrVal :=
  match kvs with
  | [] => None
  | (k', v) :: kvs' => if String.eqb k' k then Some v else assoc k kvs'
  end.

Definition attr (k : string) (e : Element) : option AttrVal :=
  assoc k (attrs e).

(** Text held directly by the element's text children. *)
Fixpoint child_text (cs : list Child) : string :=
  match cs with
  | [] => ""
  | CText s :: cs' => s +:+ child_text cs'
  | CNode _ :: cs' => child_text cs'
  end.

(* carriage return, code 13, and line feed, code 10 *)
Definition CR : Ascii.ascii := Ascii.ascii_of_nat 13.
Definition LF : Ascii.ascii := Ascii.ascii_of_nat 10.

(** The newline normalisation of the DOM: a carriage return followed by a
    line feed, and a carriage return on its own, become one line feed. *)
Fixpoint normalize_newlines (s : string) : string :=
  match s with
  | EmptyString => EmptyString
  | String c s' =>
      if Ascii.eqb c CR then
        match s' with
        | EmptyString => String LF EmptyString
        | String c' s'' =>
            if Ascii.eqb c' LF
            then String LF (normalize_newlines s'')
            else String LF (normalize_newlines s')
        end
      else String c (normalize_newlines s')
  end.

Fixpoint has_cr (s : string) : bool :=
  match s with
  | EmptyString => false
  | String c s' => Ascii.eqb c CR || has_cr s'
  end.

(** [HTMLTextAreaElement.value], the value a text-area displays and
    reports.  An untouched text-area reports its initial content with the
    newlines normalised; once the user has typed, it reports the text the
    user entered, which the browser holds with its newlines normalised
    already. *)
Definition value (e : Element) : string :=
  match edited e with
  | Some v => v
  | None => normalize_newlines (child_text (children e))
  end.

Definition is_disabled (e : Element) : bool :=
  match attr "disabled" e with
  | Some (ABool true) => true
  | _ => false
  end.

End Dom.

(** ** The model: [TextArea extends InputWidget] *)

Module TextArea.

(** [TextArea.Attrs]: the two declared properties and the fields the view
    reads from the inherited [InputWidget.Attrs]. *)
Record Attrs : Type := mkAttrs {
  id : string;
  title : string;
  name : string;
  disabled : bool;
  value : string;
  placeholder : string
}.

Definition with_value (v : string) (m : Attrs) : Attrs :=
  mkAttrs (id m) (title m) (name m) (disabled m) v (placeholder m).

(** The kinds of [core/properties] the source uses. *)
Inductive Kind : Type := PString.

(** The object handed to [this.define] in [initClass]: one entry per
    declared property, its kind and its default. *)
Record Definitions : Type := mkDefinitions {
  def_value : Kind * string;
  def_placeholder : Kind * string
}.

Definition define : Definitions :=
  {| def_value := (PString, "");
     def_placeholder := (PString, "") |}.

Definition type : string := "TextArea".

(** [Partial<TextArea.Attrs>] *)
Record PartialAttrs : Type := mkPartial {
  p_id : option string;
  p_title : option string;
  p_name : option string;
  p_disabled : option bool;
  p_value : option string;
  p_placeholder : option string
}.

Definition no_attrs : PartialAttrs :=
  mkPartial None None None None None None.

(** The fields the base class supplies when the caller gives none. *)
Record InputWidgetDefaults : Type := mkBase {
  base_id : string;
  base_title : string;
  base_name : string;
  base_disabled : bool
}.

(** Modelled from the spec: the host's property system gives a declared
    property its default unless the constructor's attributes name it. *)
Definition init_prop (decl : Kind * string) (given : option string) : string :=
  match given with
  | Some v => v
  | None => snd decl
  end.

(** [constructor(attrs?: Partial<TextArea.Attrs>) { super(attrs) }] *)
Definition constructor (base : InputWidgetDefaults)
    (attrs : option PartialAttrs) : Attrs :=
  let a := default no_attrs attrs in
  mkAttrs (default (base_id base) (p_id a))
          (default (base_title base) (p_title a))
          (default (base_name base) (p_name a))
          (default (base_disabled base) (p_disabled a))
          (init_prop (def_value define) (p_value a))
          (init_prop (def_placeholder define) (p_placeholder a)).

End TextArea.

(** ** The world the view runs in *)

(** A connection made with [this.connect(signal, slot)].  The only slot the
    source connects is [() => this.render()]. *)
Inductive Slot : Type :=
| CallRender.

(** Calls into the host whose effect is the host's own business: the hooks
    of the base class, the logger, and the property setter. *)
Inductive Event : Type :=
| SuperInitialize
| SuperConnectSignals
| SuperRender
| SuperChangeInput
| LoggerDebug (msg : string)
| PropertySet (prop : string) (v : string).

Record World : Type := mkWorld {
  (* this.model *)
  model : TextArea.Attrs;
  (* the DOM nodes that exist, by reference *)
  heap : gmap nat Dom.Element;
  (* this.el, the root element the host creates for the view *)
  el : nat;
  (* this.inputEl, unassigned until the first render *)
  inputEl : option nat;
  (* the slots connected to this.model.change *)
  slots : list Slot;
  trace : list Event
}.

Definition with_model (m : TextArea.Attrs) (w : World) : World :=
  mkWorld m (heap w) (el w) (inputEl w) (slots w) (trace w).

Definition with_heap (h : gmap nat Dom.Element) (w : World) : World :=
  mkWorld (model w) h (el w) (inputEl w) (slots w) (trace w).

Definition with_inputEl (n : option nat) (w : World) : World :=
  mkWorld (model w) (heap w) (el w) n (slots w) (trace w).

Definition with_slots (ss : list Slot) (w : World) : World :=
  mkWorld (model w) (heap w) (el w) (inputEl w) ss (trace w).

Definition with_trace (t : list Event) (w : World) : World :=
  mkWorld (model w) (heap w) (el w) (inputEl w) (slots w) t.

(** What the JavaScript runtime would throw a [TypeError] for. *)
Inductive HostFault : Type :=
| NoSuchNode (ref : nat)
| Unassigned (field : string).

Inductive Res (A : Type) : Type :=
| Ok (a : A)
| Fault (f : HostFault).

Arguments Ok {A} a.
Arguments Fault {A} f.

(** A method body: it runs on a world and either faults or returns a result
    and the world it leaves behind. *)
Definition M (A : Type) : Type := World -> Res (A * World).

Definition ret {A : Type} (a : A) : M A := fun w => Ok (a, w).

Definition bind {A B : Type} (c : M A) (k : A -> M B) : M B :=
  fun w =>
    match c w with
    | Ok (a, w') => k a w'
    | Fault f => Fault f
    end.

Definition fault {A : Type} (f : HostFault) : M A := fun _ => Fault f.

Definition gets {A : Type} (f : World -> A) : M A := fun w => Ok (f w, w).

Definition modify (f : World -> World) : M unit := fun w => Ok (tt, f w).

Declare Scope host_scope.
Delimit Scope host_scope with host.

Notation "x <- c ;; k" := (bind c (fun x => k))
  (at level 100, c at next level, right associativity) : host_scope.
Notation "c ;; k" := (bind c (fun _ => k))
  (at level 100, right associativity) : host_scope.

Open Scope host_scope.

Definition record (ev : Event) : M unit :=
  modify (fun w => with_trace (trace w ++ [ev]) w).

(** *** [core/dom] and the DOM methods the source calls *)

Definition node (n : nat) : M Dom.Element :=
  fun w =>
    match heap w !! n with
    | Some e => Ok (e, w)
    | None => Fault (NoSuchNode n)
    end.

Definition update_node (n : nat) (f : Dom.Element -> Dom.Element) : M unit :=
  e <- node n ;;
  modify (fun w => with_heap (<[n := f e]> (heap w)) w).

(** Modelled from the spec: constructing an element yields a node distinct
    from every existing one. *)
Definition createElement (e : Dom.Element) : M nat :=
  fun w =>
    let n := fresh (dom (heap w)) in
    Ok (n, with_heap (<[n := e]> (heap w)) w).

(** Modelled from the spec: [empty(el)] clears the existing content of
    [el]. *)
Definition empty (n : nat) : M unit :=
  update_node n (Dom.with_children []).

(** Modelled from the spec: [label(attrs, text)] constructs a label with the
    given attribute object and text. *)
Definition label (attrs : list (string * Dom.AttrVal)) (text : string) : M nat :=
  createElement (Dom.mkElement "label" attrs [Dom.CText text] None []).

(** Modelled from the spec: [textarea(attrs, text)] constructs a text-area
    with the given attribute object and initial content. *)
Definition textarea (attrs : list (string * Dom.AttrVal)) (text : string) : M nat :=
  createElement (Dom.mkElement "textarea" attrs [Dom.CText text] None []).

(** Modelled from the spec: [parent.appendChild(child)], for a child that
    has no parent yet, makes it the last child. *)
Definition appendChild (parent child : nat) : M unit :=
  update_node parent
    (fun e => Dom.with_children (Dom.children e ++ [Dom.CNode child]) e).

(** Modelled from the spec: [target.addEventListener(type, listener)]
    attaches a listener for events of the given type. *)
Definition addEventListener (n : nat) (ty : string) (l : Dom.Listener) : M unit :=
  update_node n
    (fun e => Dom.with_listeners (Dom.listeners e ++ [(ty, l)]) e).

(** [this.inputEl] *)
Definition this_inputEl : M nat :=
  r <- gets inputEl ;;
  match r with
  | Some n => ret n
  | None => fault (Unassigned "inputEl")
  end.

(** *** Hooks of [InputWidgetView], the logger and the signals

    The base class and the logging facility belong to the host; the view
    only calls them, and a call is recorded in the trace. *)

(** Modelled from the spec: the base class's initialization,
    [super.initialize(options)]. *)
Definition super_initialize {O : Type} (options : O) : M unit :=
  record SuperInitialize.

(** Modelled from the spec: [super.connect_signals()]. *)
Definition super_connect_signals : M unit := record SuperConnectSignals.

(** Modelled from the spec: [super.render()]. *)
Definition super_render : M unit := record SuperRender.

(** Modelled from the spec: the base class's generic "value changed" hook,
    [super.change_input()]. *)
Definition super_change_input : M unit := record SuperChangeInput.

(** Modelled from the spec: the host logging facility at debug level,
    [logger.debug(msg)]. *)
Definition logger_debug (msg : string) : M unit := record (LoggerDebug msg).

(** Modelled from the spec: the host's signal/connect mechanism,
    [this.connect(this.model.change, slot)]. *)
Definition connect (s : Slot) : M unit :=
  modify (fun w => with_slots (slots w ++ [s]) w).

(** ** [TextAreaView] *)

Section TextAreaView.

(** Whether the host broadcasts an assignment that replaces [old] by [new];
    the host decides, the widget works with every choice. *)
Variable notifies : string -> string -> bool.

Definition css_classes (super_css_classes : list string) : list string :=
  super_css_classes ++ ["bk-widget-form-group"].

Definition render : M unit :=
  super_render ;;
  this_el <- gets el ;;
  empty this_el ;;
  m <- gets model ;;
  labelEl <- label [("for", Dom.AStr (TextArea.id m))] (TextArea.title m) ;;
  appendChild this_el labelEl ;;
  m <- gets model ;;
  input <- textarea
    [ ("class", Dom.AStr "bk-widget-form-input");
      ("id", Dom.AStr (TextArea.id m));
      ("name", Dom.AStr (TextArea.name m));
      ("disabled", Dom.ABool (TextArea.disabled m));
      ("placeholder", Dom.AStr (TextArea.placeholder m));
      ("style", Dom.AStyle [("minWidth", "90%"); ("minHeight", "100%")]) ]
    (TextArea.value m) ;;
  modify (with_inputEl (Some input)) ;;
  addEventListener input "change" Dom.CallChangeInput ;;
  appendChild this_el input.

Definition initialize {O : Type} (options : O) : M unit :=
  super_initialize options ;;
  render.

Definition connect_signals : M unit :=
  super_connect_signals ;;
  connect CallRender.

Definition run_slot (s : Slot) : M unit :=
  match s with
  | CallRender => render
  end.

Fixpoint run_slots (ss : list Slot) : M unit :=
  match ss with
  | [] => ret tt
  | s :: ss' => run_slot s ;; run_slots ss'
  end.

(** Modelled from the spec: a change notification from the model is
    dispatched by the host to every connected observer. *)
Definition emit_change : M unit :=
  ss <- gets slots ;;
  run_slots ss.

(** Modelled from the spec: [this.model.value = v] goes through the host's
    property setter, which stores the value and notifies the observers. *)
Definition set_model_value (v : string) : M unit :=
  old <- gets (fun w => TextArea.value (model w)) ;;
  record (PropertySet "value" v) ;;
  modify (fun w => with_model (TextArea.with_value v (model w)) w) ;;
  if notifies old v then emit_change else ret tt.

Definition change_input : M unit :=
  input <- this_inputEl ;;
  e <- node input ;;
  let value := Dom.value e in
  logger_debug ("widget/textarea: value = " +:+ value) ;;
  set_model_value value ;;
  super_change_input.

(** *** The browser side: typing and the [change] event *)

Definition run_listener (l : Dom.Listener) : M unit :=
  match l with
  | Dom.CallChangeInput => change_input
  end.

Fixpoint run_listeners (ty : string) (ls : list (string * Dom.Listener)) : M unit :=
  match ls with
  | [] => ret tt
  | (ty', l) :: ls' =>
      (if String.eqb ty' ty then run_listener l else ret tt) ;;
      run_listeners ty ls'
  end.

(** The user replaces the content of node [n]. *)
Definition user_input (n : nat) (text : string) : M unit :=
  update_node n (Dom.with_edited (Some text)).

(** The browser fires an event of type [ty] at node [n]. *)
Definition dispatchEvent (n : nat) (ty : string) : M unit :=
  e <- node n ;;
  run_listeners ty (Dom.listeners e).

End TextAreaView.

(** ** What a well-formed view looks like *)

(** [this.el] refers to a node that exists. *)
Definition el_ok (w : World) : Prop := is_Some (heap w !! el w).

(** [this.inputEl] has been assigned and refers to a node that exists. *)
Definition inputEl_ok (w : World) : Prop :=
  exists n, inputEl w = Some n /\ is_Some (heap w !! n).

Definition view_ok (w : World) : Prop := el_ok w /\ inputEl_ok w.

(** The value shown by the text-area [this.inputEl] refers to. *)
Definition displayed (w : World) : option string :=
  match inputEl w with
  | Some n => Dom.value <$> heap w !! n
  | None => None
  end.

(** The label and the text-area a render builds for model [m]. *)
Definition label_for (m : TextArea.Attrs) : Dom.Element :=
  Dom.mkElement "label" [("for", Dom.AStr (TextArea.id m))]
    [Dom.CText (TextArea.title m)] None [].

Definition textarea_for (m : TextArea.Attrs) : Dom.Element :=
  Dom.mkElement "textarea"
    [ ("class", Dom.AStr "bk-widget-form-input");
      ("id", Dom.AStr (TextArea.id m));
      ("name", Dom.AStr (TextArea.name m));
      ("disabled", Dom.ABool (TextArea.disabled m));
      ("placeholder", Dom.AStr (TextArea.placeholder m));
      ("style", Dom.AStyle [("minWidth", "90%"); ("minHeight", "100%")]) ]
    [Dom.CText (TextArea.value m)] None [("change", Dom.CallChangeInput)].

(** The world a render leaves when it starts in [w], where [this.el] is
    [root], and the two nodes it creates are [l] and [t]. *)
Definition rendered (w : World) (root : Dom.Element) (l t : nat) : World :=
  mkWorld (model w)
    (<[el w := Dom.with_children [Dom.CNode l; Dom.CNode t] root]>
       (<[t := textarea_for (model w)]>
          (<[l := label_for (model w)]> (heap w))))
    (el w) (Some t) (slots w) (trace w ++ [SuperRender]).

(** The view shows the current model: [this.el] holds exactly a fresh label
    and a fresh text-area built from it, and [this.inputEl] is that
    text-area. *)
Definition shows_model (w : World) : Prop :=
  exists (root : Dom.Element) (l t : nat),
    heap w !! el w = Some root /\
    Dom.children root = [Dom.CNode l; Dom.CNode t] /\
    heap w !! l = Some (label_for (model w)) /\
    heap w !! t = Some (textarea_for (model w)) /\
    inputEl w = Some t.

(** What every step of a view's life keeps: the root element, the nodes
    that exist, an assigned [this.inputEl], and the connected slots. *)
Definition keeps (w w' : World) : Prop :=
  el w' = el w /\
  (forall n, is_Some (heap w !! n) -> is_Some (heap w' !! n)) /\
  (inputEl w' = inputEl w \/ inputEl_ok w') /\
  (forall s, s ∈ slots w -> s ∈ slots w').

(** ** The life of a view

    What can happen to a view between two observations: one of its methods
    runs, the user types into the text-area or the browser fires its
    [change] event, or the host stores new attributes in the model and
    notifies the observers. *)
Inductive step (notifies : string -> string -> bool) : World -> World -> Prop :=
| step_render w w' :
    render w = Ok (tt, w') -> step notifies w w'
| step_connect_signals w w' :
    connect_signals w = Ok (tt, w') -> step notifies w w'
| step_change_input w w' :
    change_input notifies w = Ok (tt, w') -> step notifies w w'
| step_user_input w w' n text :
    inputEl w = Some n ->
    user_input n text w = Ok (tt, w') -> step notifies w w'
| step_change_event w w' n :
    inputEl w = Some n ->
    dispatchEvent notifies n "change" w = Ok (tt, w') -> step notifies w w'
| step_set_value w w' v :
    set_model_value notifies v w = Ok (tt, w') -> step notifies w w'
| step_store w m :
    step notifies w (with_model m w)
| step_emit_change w w' :
    emit_change w = Ok (tt, w') -> step notifies w w'.

(** ** A sample view *)

Definition sample_model : TextArea.Attrs :=
  TextArea.mkAttrs "1001" "Notes" "notes" true "abc" "type here".

(** A view the host has just created: its root element is an empty [div]. *)
Definition sample : World :=
  mkWorld sample_model {[ 0 := Dom.mkElement "div" [] [] None [] ]}
    0 None [] [].

(** The same view, rendered and connected, after the user has typed
    "hello" into the text-area. *)
Definition sample_edited : World :=
  mkWorld sample_model
    (<[0 := Dom.mkElement "div" [] [Dom.CNode 1; Dom.CNode 2] None []]>
       (<[2 := Dom.with_edited (Some "hello") (textarea_for sample_model)]>
          {[ 1 := label_for sample_model ]}))
    0 (Some 2) [CallRender]
    [SuperInitialize; SuperRender; SuperConnectSignals].

(** A host that broadcasts an assignment when it changes the value. *)
Definition notifies_on_change (old new : string) : bool :=
  negb (String.eqb old new).

(** ** Further notions used below *)

(** [this.inputEl] is a text-area that carries the one [change] listener a
    render attaches, and nothing else. *)
Definition live_textarea (w : World) : Prop :=
  exists (n : nat) (e : Dom.Element),
    inputEl w = Some n /\ heap w !! n = Some e /\
    Dom.tag e = "textarea" /\
    Dom.listeners e = [("change", Dom.CallChangeInput)].

(** How often the trace records a value being logged, and how often it
    records the base class's "value changed" hook being called. *)
Definition is_log (ev : Event) : bool :=
  match ev with
  | LoggerDebug _ => true
  | _ => false
  end.

Definition is_hook (ev : Event) : bool :=
  match ev with
  | SuperChangeInput => true
  | _ => false
  end.

Definition count (p : Event -> bool) (t : list Event) : nat :=
  length (List.filter p t).

(** The trace of [w'] is the trace of [w] followed by calls among which
    [logs] are logged values and [hooks] are calls of the base class's
    hook. *)
Definition adds (logs hooks : nat) (w w' : World) : Prop :=
  exists d : list Event,
    trace w' = trace w ++ d /\
    count is_log d = logs /\ count is_hook d = hooks.

(** What can happen to a view apart from a write-back. *)
Inductive quiet (notifies : string -> string -> bool) : World -> World -> Prop :=
| quiet_render w w' :
    render w = Ok (tt, w') -> quiet notifies w w'
| quiet_connect_signals w w' :
    connect_signals w = Ok (tt, w') -> quiet notifies w w'
| quiet_user_input w w' n text :
    inputEl w = Some n ->
    user_input n text w = Ok (tt, w') -> quiet notifies w w'
| quiet_set_value w w' v :
    set_model_value notifies v w = Ok (tt, w') -> quiet notifies w w'
| quiet_store w m :
    quiet notifies w (with_model m w)
| quiet_emit_change w w' :
    emit_change w = Ok (tt, w') -> quiet notifies w w'.

(** A stretch of a view's life in which [change_input] runs [k] times. *)
Inductive life (notifies : string -> string -> bool) : nat -> World -> World -> Prop :=
| life_done w :
    life notifies 0 w w
| life_write_back k w w1 w2 :
    change_input notifies w = Ok (tt, w1) ->
    life notifies k w1 w2 -> life notifies (S k) w w2
| life_quiet k w w1 w2 :
    quiet notifies w w1 ->
    life notifies k w1 w2 -> life notifies k w w2.

(** Text with a Windows line break, and the same text as a text-area
    reports it. *)
Definition a_crlf_b : string :=
  "a" +:+ String Dom.CR (String Dom.LF "b").

Definition a_lf_b : string := "a" +:+ String Dom.LF "b".



(** * Proofs *)

(** ** Running the monad *)

Lemma bind_Ok {A B : Type} (c : M A) (k : A -> M B) (w w' : World) (a : A) :
  c w = Ok (a, w') -> bind c k w = k a w'.
Proof. intros H. unfold bind. by rewrite H. Qed.

Lemma bind_Fault {A B : Type} (c : M A) (k : A -> M B) (w : World) (f : HostFault) :
  c w = Fault f -> bind c k w = Fault f.
Proof. intros H. unfold bind. by rewrite H. Qed.

Lemma bind_inv {A B : Type} (c : M A) (k : A -> M B) (w w2 : World) (b : B) :
  bind c k w = Ok (b, w2) ->
  exists a w1, c w = Ok (a, w1) /\ k a w1 = Ok (b, w2).
Proof.
  unfold bind. destruct (c w) as [[a w1]|f]; [|discriminate].
  intros H. by exists a, w1.
Qed.

Lemma node_Ok (n : nat) (e : Dom.Element) (w : World) :
  heap w !! n = Some e -> node n w = Ok (e, w).
Proof. intros H. unfold node. by rewrite H. Qed.

Lemma update_node_Ok (n : nat) (f : Dom.Element -> Dom.Element)
    (e : Dom.Element) (w : World) :
  heap w !! n = Some e ->
  update_node n f w = Ok (tt, with_heap (<[n := f e]> (heap w)) w).
Proof.
  intros H. unfold update_node. by rewrite (bind_Ok _ _ _ _ _ (node_Ok _ _ _ H)).
Qed.

Lemma fresh_node_None (h : gmap nat Dom.Element) : h !! fresh (dom h) = None.
Proof. apply not_elem_of_dom, is_fresh. Qed.

Lemma fresh_node_ne (h : gmap nat Dom.Element) (n : nat) :
  is_Some (h !! n) -> fresh (dom h) <> n.
Proof.
  intros [e He] Heq. subst n. rewrite fresh_node_None in He. discriminate.
Qed.

Lemma record_Ok (ev : Event) (w : World) :
  record ev w = Ok (tt, with_trace (trace w ++ [ev]) w).
Proof. reflexivity. Qed.

Lemma gets_Ok {A : Type} (f : World -> A) (w : World) : gets f w = Ok (f w, w).
Proof. reflexivity. Qed.

Lemma modify_Ok (f : World -> World) (w : World) : modify f w = Ok (tt, f w).
Proof. reflexivity. Qed.

Lemma createElement_Ok (e : Dom.Element) (w : World) :
  createElement e w =
  Ok (fresh (dom (heap w)), with_heap (<[fresh (dom (heap w)) := e]> (heap w)) w).
Proof. reflexivity. Qed.

Ltac world_simpl :=
  unfold with_model, with_heap, with_inputEl, with_slots, with_trace,
    Dom.with_children, Dom.with_edited, Dom.with_listeners;
  cbn [model heap el inputEl slots trace
       Dom.tag Dom.attrs Dom.children Dom.edited Dom.listeners app].

Ltac run H := rewrite (bind_Ok _ _ _ _ _ H); world_simpl.

(** ** [render] *)

Lemma render_Ok (w : World) (root : Dom.Element) :
  heap w !! el w = Some root ->
  exists l t : nat,
    heap w !! l = None /\ heap w !! t = None /\ l <> t /\
    render w = Ok (tt, rendered w root l t).
Proof.
  intros Hroot.
  set (h1 := <[el w := Dom.with_children [] root]> (heap w)).
  set (l := fresh (dom h1)).
  set (h2 := <[l := label_for (model w)]> h1).
  set (root1 := Dom.with_children [Dom.CNode l] root).
  set (h3 := <[el w := root1]> h2).
  set (t := fresh (dom h3)).
  assert (Hl_el : l <> el w).
  { apply fresh_node_ne. unfold h1. rewrite lookup_insert_eq. by eexists. }
  assert (Hl : heap w !! l = None).
  { rewrite <- (lookup_insert_ne (heap w) (el w) l (Dom.with_children [] root))
      by done. apply fresh_node_None. }
  assert (Ht_el : t <> el w).
  { apply fresh_node_ne. unfold h3. rewrite lookup_insert_eq. by eexists. }
  assert (Ht_l : t <> l).
  { apply fresh_node_ne. unfold h3, h2.
    rewrite lookup_insert_ne, lookup_insert_eq by done. by eexists. }
  assert (Ht : heap w !! t = None).
  { pose proof (fresh_node_None h3) as H. fold t in H. unfold h3, h2, h1 in H.
    by rewrite !lookup_insert_ne in H by done. }
  exists l, t. repeat split; [done | done | done |].
  unfold render, super_render, empty, label, textarea,
    appendChild, addEventListener.
  run (record_Ok SuperRender w).
  erewrite bind_Ok; [| apply gets_Ok]. world_simpl.
  erewrite bind_Ok; [| by apply update_node_Ok]. world_simpl.
  erewrite bind_Ok; [| apply gets_Ok]. world_simpl.
  erewrite bind_Ok; [| apply createElement_Ok]. world_simpl.
  fold (Dom.with_children [] root) h1 l (label_for (model w)) h2.
  erewrite bind_Ok; [| apply update_node_Ok; world_simpl;
    unfold h2; rewrite lookup_insert_ne by done; apply lookup_insert_eq].
  world_simpl.
  fold (Dom.with_children [Dom.CNode l] root) root1 h3.
  erewrite bind_Ok; [| apply gets_Ok]. world_simpl.
  erewrite bind_Ok; [| apply createElement_Ok]. world_simpl.
  fold t.
  erewrite bind_Ok; [| apply modify_Ok]. world_simpl.
  erewrite bind_Ok; [| apply update_node_Ok; world_simpl; apply lookup_insert_eq].
  world_simpl.
  erewrite update_node_Ok; [| world_simpl;
    rewrite !lookup_insert_ne by done; apply lookup_insert_eq].
  world_simpl. unfold rendered. do 3 f_equal.
  apply map_eq. intros i. unfold h3, h2, h1, root1, textarea_for.
  rewrite !lookup_insert. repeat case_decide; subst; done.
Qed.

(** Without its root element a render cannot start. *)
Lemma render_Fault (w : World) :
  heap w !! el w = None -> render w = Fault (NoSuchNode (el w)).
Proof.
  intros Hroot. unfold render, super_render, empty, update_node.
  run (record_Ok SuperRender w).
  erewrite bind_Ok; [| apply gets_Ok]. world_simpl.
  erewrite bind_Fault; [done |]. erewrite bind_Fault; [done |].
  unfold node. world_simpl. by rewrite Hroot.
Qed.

Section Rendered.

Variables (w : World) (root : Dom.Element) (l t : nat).
Hypothesis Hroot : heap w !! el w = Some root.
Hypothesis Hl : heap w !! l = None.
Hypothesis Ht : heap w !! t = None.
Hypothesis Hlt : l <> t.

Lemma rendered_lookup_el :
  heap (rendered w root l t) !! el w =
  Some (Dom.with_children [Dom.CNode l; Dom.CNode t] root).
Proof. unfold rendered; cbn [heap]. apply lookup_insert_eq. Qed.

Lemma rendered_lookup_textarea :
  heap (rendered w root l t) !! t = Some (textarea_for (model w)).
Proof.
  unfold rendered; cbn [heap].
  rewrite lookup_insert_ne by congruence. apply lookup_insert_eq.
Qed.

Lemma rendered_lookup_label :
  heap (rendered w root l t) !! l = Some (label_for (model w)).
Proof.
  unfold rendered; cbn [heap].
  rewrite !lookup_insert_ne by congruence. apply lookup_insert_eq.
Qed.

Lemma rendered_lookup_other (n : nat) :
  n <> el w -> is_Some (heap w !! n) ->
  heap (rendered w root l t) !! n = heap w !! n.
Proof.
  intros Hn [e He]. unfold rendered; cbn [heap].
  rewrite !lookup_insert_ne; [done | congruence | congruence | congruence].
Qed.

Lemma rendered_keeps_nodes (n : nat) :
  is_Some (heap w !! n) -> is_Some (heap (rendered w root l t) !! n).
Proof.
  intros Hn. destruct (decide (n = el w)) as [-> | Hne].
  - rewrite rendered_lookup_el. by eexists.
  - by rewrite rendered_lookup_other.
Qed.

Lemma rendered_shows_model : shows_model (rendered w root l t).
Proof.
  exists (Dom.with_children [Dom.CNode l; Dom.CNode t] root), l, t.
  split; [apply rendered_lookup_el |].
  split; [reflexivity |].
  split; [apply rendered_lookup_label |].
  split; [apply rendered_lookup_textarea | reflexivity].
Qed.

End Rendered.

Lemma append_empty_r (s : string) : s +:+ "" = s.
Proof.
  induction s as [| c s IH]; [reflexivity |].
  change (String c (s +:+ "") = String c s). by rewrite IH.
Qed.

(** ** Newline normalisation *)

Lemma normalize_no_cr (s : string) :
  Dom.has_cr s = false -> Dom.normalize_newlines s = s.
Proof.
  induction s as [| c s IH]; [done |]. cbn [Dom.has_cr Dom.normalize_newlines].
  intros [Hc Hs]%orb_false_iff. rewrite Hc. by rewrite IH.
Qed.



(** A freshly built text-area shows the model's value with its newlines
    normalised. *)
Lemma textarea_for_value (m : TextArea.Attrs) :
  Dom.value (textarea_for m) = Dom.normalize_newlines (TextArea.value m).
Proof.
  change (Dom.normalize_newlines (TextArea.value m +:+ "") =
          Dom.normalize_newlines (TextArea.value m)).
  by rewrite append_empty_r.
Qed.

Lemma shows_model_displayed (w : World) :
  shows_model w ->
  displayed w = Some (Dom.normalize_newlines (TextArea.value (model w))).
Proof.
  intros (root & l & t & _ & _ & _ & Ht & Hin).
  unfold displayed. rewrite Hin, Ht.
  change (Some (Dom.value (textarea_for (model w))) =
          Some (Dom.normalize_newlines (TextArea.value (model w)))).
  by rewrite textarea_for_value.
Qed.

Lemma shows_model_view_ok (w : World) : shows_model w -> view_ok w.
Proof.
  intros (root & l & t & Hroot & _ & _ & Ht & Hin). split.
  - by exists root.
  - exists t. split; [done | by eexists].
Qed.

(** What a render keeps and what it establishes, for a view whose root
    element exists. *)
Lemma render_post (w : World) :
  el_ok w ->
  exists w',
    render w = Ok (tt, w') /\
    model w' = model w /\ el w' = el w /\ slots w' = slots w /\
    trace w' = trace w ++ [SuperRender] /\
    shows_model w' /\
    (forall n, is_Some (heap w !! n) -> is_Some (heap w' !! n)).
Proof.
  intros [root Hroot].
  destruct (render_Ok w root Hroot) as (l & t & Hl & Ht & Hlt & Hr).
  exists (rendered w root l t). split; [done |].
  repeat split; try reflexivity.
  - by apply rendered_shows_model.
  - intros n. by apply rendered_keeps_nodes.
Qed.

(** ** Change notifications *)

Lemma run_slots_post (ss : list Slot) (w : World) :
  el_ok w ->
  exists w',
    run_slots ss w = Ok (tt, w') /\
    model w' = model w /\ el w' = el w /\ slots w' = slots w /\
    trace w' = trace w ++ replicate (length ss) SuperRender /\
    (ss = [] -> w' = w) /\
    (ss <> [] -> shows_model w') /\
    (forall n, is_Some (heap w !! n) -> is_Some (heap w' !! n)).
Proof.
  revert w. induction ss as [| [] ss IH]; intros w Hel.
  - exists w. cbn. rewrite app_nil_r. by repeat split.
  - destruct (render_post w Hel)
      as (w1 & Hr & Hm1 & He1 & Hs1 & Ht1 & Hshow1 & Hk1).
    assert (Hel1 : el_ok w1) by apply (shows_model_view_ok _ Hshow1).
    destruct (IH w1 Hel1)
      as (w2 & Hrun & Hm2 & He2 & Hs2 & Ht2 & Hnil & Hshow2 & Hk2).
    exists w2. cbn [run_slots run_slot]. rewrite (bind_Ok _ _ _ _ _ Hr).
    split; [done |].
    split; [congruence |]. split; [congruence |]. split; [congruence |].
    split.
    { rewrite Ht2, Ht1. cbn. by rewrite <- app_assoc. }
    split; [done |].
    split.
    { intros _. destruct ss as [| s ss'].
      - by rewrite (Hnil eq_refl).
      - by apply Hshow2. }
    intros n Hn. by apply Hk2, Hk1.
Qed.

Lemma emit_change_post (w : World) :
  el_ok w ->
  exists w',
    emit_change w = Ok (tt, w') /\
    model w' = model w /\ el w' = el w /\ slots w' = slots w /\
    trace w' = trace w ++ replicate (length (slots w)) SuperRender /\
    (slots w = [] -> w' = w) /\
    (slots w <> [] -> shows_model w') /\
    (forall n, is_Some (heap w !! n) -> is_Some (heap w' !! n)).
Proof.
  intros Hel. unfold emit_change.
  erewrite bind_Ok; [| apply gets_Ok]. by apply run_slots_post.
Qed.

(** ** [connect_signals] *)

Lemma connect_signals_Ok (w : World) :
  connect_signals w =
  Ok (tt, with_slots (slots w ++ [CallRender])
            (with_trace (trace w ++ [SuperConnectSignals]) w)).
Proof. reflexivity. Qed.

(** ** The property setter and [change_input] *)

Section Setter.

Variable notifies : string -> string -> bool.

Lemma set_model_value_post (v : string) (w : World) :
  el_ok w ->
  exists (w' : World) (k : nat),
    set_model_value notifies v w = Ok (tt, w') /\
    model w' = TextArea.with_value v (model w) /\
    el w' = el w /\ slots w' = slots w /\
    trace w' = trace w ++ PropertySet "value" v :: replicate k SuperRender /\
    (k = if notifies (TextArea.value (model w)) v
         then length (slots w) else 0) /\
    (k = 0 -> heap w' = heap w /\ inputEl w' = inputEl w) /\
    (k <> 0 -> shows_model w') /\
    (forall n, is_Some (heap w !! n) -> is_Some (heap w' !! n)).
Proof.
  intros Hel. unfold set_model_value.
  erewrite bind_Ok; [| apply gets_Ok].
  erewrite bind_Ok; [| apply record_Ok].
  erewrite bind_Ok; [| apply modify_Ok]. world_simpl.
  set (w1 := mkWorld _ _ _ _ _ _).
  destruct (notifies (TextArea.value (model w)) v).
  - destruct (emit_change_post w1 Hel)
      as (w2 & Hrun & Hm & He & Hs & Ht & Hnil & Hshow & Hk).
    exists w2, (length (slots w)). split; [done |].
    split; [done |]. split; [done |]. split; [done |].
    split; [by rewrite Ht; unfold w1; cbn; rewrite <- app_assoc |].
    split; [done |].
    split.
    { intros H0. apply length_zero_iff_nil in H0.
      by rewrite (Hnil H0). }
    split; [| done].
    intros Hk0. apply Hshow. unfold w1; cbn. intros Hnil'.
    by rewrite Hnil' in Hk0.
  - exists w1, 0. by repeat split.
Qed.

Lemma change_input_post (w : World) (n : nat) (e : Dom.Element) :
  el_ok w -> inputEl w = Some n -> heap w !! n = Some e ->
  exists (w' : World) (k : nat),
    change_input notifies w = Ok (tt, w') /\
    model w' = TextArea.with_value (Dom.value e) (model w) /\
    el w' = el w /\ slots w' = slots w /\
    trace w' =
      trace w ++
      [LoggerDebug ("widget/textarea: value = " +:+ Dom.value e);
       PropertySet "value" (Dom.value e)] ++
      replicate k SuperRender ++ [SuperChangeInput] /\
    (k = if notifies (TextArea.value (model w)) (Dom.value e)
         then length (slots w) else 0) /\
    (k = 0 -> heap w' = heap w /\ inputEl w' = inputEl w) /\
    (k <> 0 -> shows_model w') /\
    (forall n, is_Some (heap w !! n) -> is_Some (heap w' !! n)).
Proof.
  intros Hel Hin He. unfold change_input, this_inputEl, logger_debug,
    super_change_input.
  erewrite bind_Ok; [| erewrite bind_Ok; [| apply gets_Ok]; rewrite Hin;
    reflexivity].
  erewrite bind_Ok; [| by apply node_Ok].
  erewrite bind_Ok; [| apply record_Ok].
  set (w1 := with_trace _ w).
  destruct (set_model_value_post (Dom.value e) w1 Hel)
    as (w2 & k & Hset & Hm & Hel2 & Hs & Ht & Hk & Hsame & Hshow & Hkeep).
  erewrite bind_Ok; [| exact Hset].
  exists (with_trace (trace w2 ++ [SuperChangeInput]) w2), k.
  split; [reflexivity |]. world_simpl.
  split; [done |]. split; [done |]. split; [done |].
  split.
  { rewrite Ht. unfold w1. world_simpl. rewrite <- !app_assoc. reflexivity. }
  split; [done |]. split; [done |]. split; [| done].
  intros Hk0. destruct (Hshow Hk0) as (root & l & t & H).
  by exists root, l, t.
Qed.

End Setter.

(** ** What the steps of a view's life keep *)

Lemma keeps_refl (w : World) : keeps w w.
Proof. unfold keeps. auto. Qed.

Lemma keeps_el_ok (w w' : World) : keeps w w' -> el_ok w -> el_ok w'.
Proof. intros (He & Hn & _) Hel. unfold el_ok. rewrite He. by apply Hn. Qed.

Lemma keeps_inputEl_ok (w w' : World) :
  keeps w w' -> inputEl_ok w -> inputEl_ok w'.
Proof.
  intros (_ & Hn & [Hi | Hi] & _) (n & Hin & Hsome); [| done].
  exists n. split; [congruence | by apply Hn].
Qed.

Lemma keeps_view_ok (w w' : World) : keeps w w' -> view_ok w -> view_ok w'.
Proof.
  intros Hk [Hel Hin]. split; [by eapply keeps_el_ok | by eapply keeps_inputEl_ok].
Qed.

Lemma keeps_trans (w1 w2 w3 : World) : keeps w1 w2 -> keeps w2 w3 -> keeps w1 w3.
Proof.
  intros H12 H23.
  pose proof H12 as (He1 & Hn1 & Hi1 & Hs1).
  pose proof H23 as (He2 & Hn2 & Hi2 & Hs2).
  split; [congruence |]. split; [auto |]. split; [| auto].
  destruct Hi2 as [Hi2 | Hi2]; [| by right].
  destruct Hi1 as [Hi1 | Hi1]; [left; congruence |].
  right. by apply (keeps_inputEl_ok w2 w3).
Qed.

Lemma insert_keeps_nodes (h : gmap nat Dom.Element) (n k : nat) (e : Dom.Element) :
  is_Some (h !! k) -> is_Some (<[n := e]> h !! k).
Proof.
  intros Hk. rewrite lookup_insert. case_decide; [by eexists | done].
Qed.

Lemma render_keeps (w w' : World) :
  render w = Ok (tt, w') -> keeps w w' /\ shows_model w'.
Proof.
  intros Hr. destruct (heap w !! el w) as [root |] eqn:Hroot.
  - destruct (render_post w (ex_intro _ root Hroot))
      as (w'' & Hr' & Hm & He & Hs & Ht & Hshow & Hn).
    rewrite Hr in Hr'. injection Hr' as <-.
    split; [| done]. split; [done |]. split; [done |].
    split; [right; apply (shows_model_view_ok _ Hshow) |].
    intros s. by rewrite Hs.
  - rewrite (render_Fault w Hroot) in Hr. discriminate.
Qed.

Lemma connect_signals_keeps (w w' : World) :
  connect_signals w = Ok (tt, w') -> keeps w w' /\ CallRender ∈ slots w'.
Proof.
  rewrite connect_signals_Ok. intros [= <-]. world_simpl. split.
  - split; [done |]. split; [done |]. split; [by left |].
    intros s Hs. apply elem_of_app. by left.
  - apply elem_of_app. right. apply list_elem_of_singleton. done.
Qed.

Lemma emit_change_keeps (w w' : World) :
  el_ok w -> emit_change w = Ok (tt, w') -> keeps w w'.
Proof.
  intros Hel Hrun.
  destruct (emit_change_post w Hel)
    as (w'' & Hrun' & Hm & He & Hs & Ht & Hnil & Hshow & Hn).
  rewrite Hrun in Hrun'. injection Hrun' as <-.
  split; [done |]. split; [done |]. split; [| intros s; by rewrite Hs].
  destruct (slots w) as [| s ss] eqn:Hss.
  - left. by rewrite (Hnil eq_refl).
  - right. apply shows_model_view_ok, Hshow. done.
Qed.

Lemma user_input_keeps (n : nat) (text : string) (w w' : World) :
  user_input n text w = Ok (tt, w') -> keeps w w'.
Proof.
  unfold user_input, update_node. intros H.
  apply bind_inv in H as (e & w1 & Hnode & Hmod).
  unfold node in Hnode. destruct (heap w !! n); [| discriminate].
  injection Hnode as <- <-. injection Hmod as <-. world_simpl.
  split; [done |]. split; [| split; [by left | done]].
  intros k. apply insert_keeps_nodes.
Qed.

Section Life.

Variable notifies : string -> string -> bool.

Lemma set_model_value_keeps (v : string) (w w' : World) :
  el_ok w -> set_model_value notifies v w = Ok (tt, w') -> keeps w w'.
Proof.
  intros Hel Hset.
  destruct (set_model_value_post notifies v w Hel)
    as (w'' & k & Hset' & Hm & He & Hs & Ht & Hk & Hsame & Hshow & Hn).
  rewrite Hset in Hset'. injection Hset' as <-.
  split; [done |]. split; [done |]. split; [| intros s; by rewrite Hs].
  destruct (decide (k = 0)) as [Hk0 | Hk0].
  - left. by apply Hsame.
  - right. by apply shows_model_view_ok, Hshow.
Qed.

(** A [change_input] that returns has found [this.inputEl] and its node. *)
Lemma change_input_inv (w w' : World) :
  change_input notifies w = Ok (tt, w') ->
  exists n e, inputEl w = Some n /\ heap w !! n = Some e.
Proof.
  unfold change_input, this_inputEl. intros H.
  apply bind_inv in H as (n & w1 & Hin & H).
  apply bind_inv in Hin as (r & w0 & Hget & Hin).
  injection Hget as <- <-.
  destruct (inputEl w) as [n' |] eqn:Hn; [| discriminate].
  injection Hin as <- <-.
  apply bind_inv in H as (e & w2 & Hnode & _).
  unfold node in Hnode. destruct (heap w !! n') as [e' |] eqn:He; [| discriminate].
  by exists n', e'.
Qed.

Lemma change_input_keeps (w w' : World) :
  el_ok w -> change_input notifies w = Ok (tt, w') -> keeps w w'.
Proof.
  intros Hel Hrun.
  destruct (change_input_inv w w' Hrun) as (n & e & Hin & He).
  destruct (change_input_post notifies w n e Hel Hin He)
    as (w'' & k & Hrun' & Hm & Hel' & Hs & Ht & Hk & Hsame & Hshow & Hn).
  rewrite Hrun in Hrun'. injection Hrun' as <-.
  split; [done |]. split; [done |]. split; [| intros s; by rewrite Hs].
  destruct (decide (k = 0)) as [Hk0 | Hk0].
  - left. by apply Hsame.
  - right. by apply shows_model_view_ok, Hshow.
Qed.

Lemma run_listeners_keeps (ty : string) (ls : list (string * Dom.Listener))
    (w w' : World) :
  el_ok w -> run_listeners notifies ty ls w = Ok (tt, w') -> keeps w w'.
Proof.
  revert w. induction ls as [| [ty' []] ls IH]; intros w Hel Hrun.
  - injection Hrun as <-. apply keeps_refl.
  - cbn [run_listeners run_listener] in Hrun.
    apply bind_inv in Hrun as ([] & w1 & Hfirst & Hrest).
    assert (Hk1 : keeps w w1).
    { destruct (String.eqb ty' ty).
      - by apply change_input_keeps.
      - injection Hfirst as <-. apply keeps_refl. }
    apply (keeps_trans _ w1); [done |].
    apply IH; [by apply (keeps_el_ok w) | done].
Qed.

Lemma dispatchEvent_keeps (n : nat) (ty : string) (w w' : World) :
  el_ok w -> dispatchEvent notifies n ty w = Ok (tt, w') -> keeps w w'.
Proof.
  intros Hel Hrun. unfold dispatchEvent in Hrun.
  apply bind_inv in Hrun as (e & w1 & Hnode & Hrun).
  unfold node in Hnode. destruct (heap w !! n) as [e' |]; [| discriminate].
  injection Hnode as <- <-. by apply (run_listeners_keeps ty (Dom.listeners e')).
Qed.

Lemma step_keeps (w w' : World) :
  el_ok w -> step notifies w w' -> keeps w w'.
Proof.
  intros Hel Hstep. destruct Hstep.
  - by apply render_keeps.
  - by apply connect_signals_keeps.
  - by apply change_input_keeps.
  - by eapply user_input_keeps.
  - by eapply dispatchEvent_keeps.
  - by eapply set_model_value_keeps.
  - unfold keeps. world_simpl. auto.
  - by apply emit_change_keeps.
Qed.

(** The invariant of a view's life. *)
Lemma life_keeps (w w' : World) :
  el_ok w -> rtc (step notifies) w w' -> keeps w w'.
Proof.
  intros Hel Hrtc. induction Hrtc as [w | w w1 w2 Hstep _ IH].
  - apply keeps_refl.
  - pose proof (step_keeps w w1 Hel Hstep) as Hk1.
    apply (keeps_trans _ w1); [done |].
    apply IH. by apply (keeps_el_ok w).
Qed.

End Life.

(** ** The browser side *)

Lemma user_input_Ok (n : nat) (text : string) (e : Dom.Element) (w : World) :
  heap w !! n = Some e ->
  user_input n text w =
  Ok (tt, with_heap (<[n := Dom.with_edited (Some text) e]> (heap w)) w).
Proof. apply update_node_Ok. Qed.


(** * The claims *)


(** C2: [render] clears what [this.el] held and leaves in it, in this
    order, a new label whose [for] is the model's id and whose text is the
    model's title, and a new text-area whose id, name, disabled and
    placeholder are the model's, whose inline sizing is fixed, whose content
    is the model's [value], and which carries the [change] listener that
    calls [change_input]; [this.inputEl] is that text-area. *)
Theorem render_builds_label_and_textarea (w : World) (root : Dom.Element) :
  heap w !! el w = Some root ->
  exists (labelEl input : nat) (w' : World),
    render w = Ok (tt, w') /\
    heap w !! labelEl = None /\ heap w !! input = None /\ labelEl <> input /\
    heap w' !! el w =
      Some (Dom.mkElement (Dom.tag root) (Dom.attrs root)
              [Dom.CNode labelEl; Dom.CNode input]
              (Dom.edited root) (Dom.listeners root)) /\
    heap w' !! labelEl =
      Some (Dom.mkElement "label"
              [("for", Dom.AStr (TextArea.id (model w)))]
              [Dom.CText (TextArea.title (model w))] None []) /\
    heap w' !! input =
      Some (Dom.mkElement "textarea"
              [ ("class", Dom.AStr "bk-widget-form-input");
                ("id", Dom.AStr (TextArea.id (model w)));
                ("name", Dom.AStr (TextArea.name (model w)));
                ("disabled", Dom.ABool (TextArea.disabled (model w)));
                ("placeholder", Dom.AStr (TextArea.placeholder (model w)));
                ("style",
                 Dom.AStyle [("minWidth", "90%"); ("minHeight", "100%")]) ]
              [Dom.CText (TextArea.value (model w))] None
              [("change", Dom.CallChangeInput)]) /\
    inputEl w' = Some input.
Proof.
  intros Hroot.
  destruct (render_Ok w root Hroot) as (l & t & Hl & Ht & Hlt & Hr).
  exists l, t, (rendered w root l t).
  split; [done |]. split; [done |]. split; [done |]. split; [done |].
  split; [apply rendered_lookup_el |].
  split; [by apply rendered_lookup_label |].
  split; [by apply rendered_lookup_textarea | reflexivity].
Qed.

(** C3: a [TextArea] constructed without attributes, or with an empty
    attribute object, has the empty string as [value] and as
    [placeholder]. *)
Theorem TextArea_defaults (base : TextArea.InputWidgetDefaults) :
  TextArea.value (TextArea.constructor base None) = "" /\
  TextArea.placeholder (TextArea.constructor base None) = "" /\
  TextArea.value (TextArea.constructor base (Some TextArea.no_attrs)) = "" /\
  TextArea.placeholder (TextArea.constructor base (Some TextArea.no_attrs)) = "".
Proof. by repeat split. Qed.

(** C4 (amended): once [connect_signals] has run, at any later moment of
    the view's life a change notification from the model re-renders the view
    from the current model; in particular, when the model's [value] is set
    to [v] and the host notifies, the text-area rendered next displays [v]
    with its newlines normalised (a carriage return, alone or before a line
    feed, becomes a line feed), hence [v] itself when [v] holds no carriage
    return. *)
Theorem connect_signals_rerenders (notifies : string -> string -> bool)
    (w : World) :
  el_ok w ->
  exists w1 : World,
    connect_signals w = Ok (tt, w1) /\
    forall w2 : World,
      rtc (step notifies) w1 w2 ->
      (exists w3 : World,
         emit_change w2 = Ok (tt, w3) /\
         model w3 = model w2 /\
         shows_model w3 /\
         displayed w3 =
           Some (Dom.normalize_newlines (TextArea.value (model w2)))) /\
      (forall v : string,
         notifies (TextArea.value (model w2)) v = true ->
         exists w3 : World,
           set_model_value notifies v w2 = Ok (tt, w3) /\
           TextArea.value (model w3) = v /\
           shows_model w3 /\
           displayed w3 = Some (Dom.normalize_newlines v) /\
           (Dom.has_cr v = false -> displayed w3 = Some v)).
Proof.
  intros Hel. eexists. split; [apply connect_signals_Ok |].
  set (w1 := with_slots _ _). intros w2 Hlife.
  assert (Hel1 : el_ok w1) by exact Hel.
  assert (Hc1 : CallRender ∈ slots w1).
  { unfold w1. cbn [with_slots slots]. apply elem_of_app. right.
    by apply list_elem_of_singleton. }
  pose proof (life_keeps notifies w1 w2 Hel1 Hlife) as Hk.
  assert (Hel2 : el_ok w2) by by apply (keeps_el_ok w1).
  assert (Hc2 : slots w2 <> []).
  { destruct Hk as (_ & _ & _ & Hs). specialize (Hs _ Hc1).
    intros Hnil. rewrite Hnil in Hs. by apply elem_of_nil in Hs. }
  split.
  - destruct (emit_change_post w2 Hel2)
      as (w3 & Hrun & Hm & _ & _ & _ & _ & Hshow & _).
    exists w3. split; [done |]. split; [done |]. split; [by apply Hshow |].
    rewrite <- Hm. by apply shows_model_displayed, Hshow.
  - intros v Hnotify.
    destruct (set_model_value_post notifies v w2 Hel2)
      as (w3 & k & Hset & Hm & _ & _ & _ & Hk3 & _ & Hshow & _).
    rewrite Hnotify in Hk3.
    assert (Hk0 : k <> 0).
    { rewrite Hk3. destruct (slots w2); [done | discriminate]. }
    exists w3. split; [done |].
    assert (Hv : TextArea.value (model w3) = v) by by rewrite Hm.
    split; [done |]. split; [by apply Hshow |].
    assert (Hd : displayed w3 = Some (Dom.normalize_newlines v)).
    { rewrite <- Hv. by apply shows_model_displayed, Hshow. }
    split; [done |]. intros Hcr. by rewrite Hd, normalize_no_cr.
Qed.


(** C6: whatever the options, [initialize] calls the base class's
    initialization and then [render], once: the only calls into the host it
    adds are [super.initialize] followed by the single [super.render] a
    render makes, and it returns with the view showing the model. *)
Theorem initialize_renders_once {O : Type} (options : O) (w : World) :
  el_ok w ->
  exists w0 w' : World,
    super_initialize options w = Ok (tt, w0) /\
    render w0 = Ok (tt, w') /\
    initialize options w = Ok (tt, w') /\
    trace w' = trace w ++ [SuperInitialize; SuperRender] /\
    shows_model w'.
Proof.
  intros Hel.
  set (w0 := with_trace (trace w ++ [SuperInitialize]) w).
  destruct (render_post w0 Hel) as (w' & Hr & _ & _ & _ & Ht & Hshow & _).
  exists w0, w'. split; [reflexivity |]. split; [done |].
  split; [unfold initialize; by erewrite bind_Ok |].
  split; [| done].
  rewrite Ht. unfold w0. cbn [with_trace trace]. by rewrite <- app_assoc.
Qed.

(** C7: the text-area [render] produces carries the model's disabled flag:
    it is disabled when the flag is true and not disabled when it is
    false. *)
Theorem render_disabled (w : World) :
  el_ok w ->
  exists (w' : World) (input : nat) (ta : Dom.Element),
    render w = Ok (tt, w') /\
    inputEl w' = Some input /\
    heap w' !! input = Some ta /\
    Dom.tag ta = "textarea" /\
    Dom.attr "disabled" ta = Some (Dom.ABool (TextArea.disabled (model w))) /\
    Dom.is_disabled ta = TextArea.disabled (model w).
Proof.
  intros [root Hroot].
  destruct (render_Ok w root Hroot) as (l & t & Hl & Ht & Hlt & Hr).
  exists (rendered w root l t), t, (textarea_for (model w)).
  split; [done |]. split; [reflexivity |].
  split; [by apply rendered_lookup_textarea |].
  split; [reflexivity |]. split; [reflexivity |].
  unfold Dom.is_disabled.
  change (Dom.attr "disabled" (textarea_for (model w)))
    with (Some (Dom.ABool (TextArea.disabled (model w)))).
  by destruct (TextArea.disabled (model w)).
Qed.

(** A view that has its root element and its text-area keeps them through
    [render] and [change_input], and both return normally. *)
Lemma view_ok_total (notifies : string -> string -> bool) (w : World) :
  view_ok w ->
  (exists w', render w = Ok (tt, w') /\ view_ok w') /\
  (exists w', change_input notifies w = Ok (tt, w') /\ view_ok w').
Proof.
  intros [Hel (n & Hin & e & He)]. split.
  - destruct (render_post w Hel) as (w' & Hr & _ & _ & _ & _ & Hshow & _).
    exists w'. split; [done | by apply shows_model_view_ok].
  - destruct (change_input_post notifies w n e Hel Hin He) as (w' & k & Hrun & _).
    exists w'. split; [done |].
    apply (keeps_view_ok w); [by apply (change_input_keeps notifies) |].
    split; [done |]. exists n. split; [done | by exists e].
Qed.

(** C8: [render] and [change_input] never fault: from the moment the view
    has been initialized, whatever happens to it afterwards, each of the two
    returns normally. *)
Theorem render_and_change_input_never_fault
    (notifies : string -> string -> bool) {O : Type} (options : O)
    (w : World) :
  el_ok w ->
  exists w1 : World,
    initialize options w = Ok (tt, w1) /\
    forall w2 : World,
      rtc (step notifies) w1 w2 ->
      (exists w3 : World, render w2 = Ok (tt, w3)) /\
      (exists w3 : World, change_input notifies w2 = Ok (tt, w3)).
Proof.
  intros Hel.
  set (w0 := with_trace (trace w ++ [SuperInitialize]) w).
  destruct (render_post w0 Hel) as (w1 & Hr & _ & _ & _ & _ & Hshow & _).
  exists w1. split; [unfold initialize; by erewrite bind_Ok |].
  intros w2 Hlife.
  pose proof (shows_model_view_ok w1 Hshow) as Hok1.
  assert (Hok2 : view_ok w2).
  { apply (keeps_view_ok w1); [| done].
    apply (life_keeps notifies); [apply Hok1 | done]. }
  destruct (view_ok_total notifies w2 Hok2)
    as [(w3 & Hr3 & _) (w3' & Hc3 & _)].
  split; [by exists w3 | by exists w3'].
Qed.

(** C9: [change_input] changes nothing in the model but [value]: the
    placeholder and the inherited id, title, name and disabled flag are what
    they were. *)
Theorem change_input_frame (notifies : string -> string -> bool)
    (w : World) (n : nat) (e : Dom.Element) :
  el_ok w -> inputEl w = Some n -> heap w !! n = Some e ->
  exists w' : World,
    change_input notifies w = Ok (tt, w') /\
    TextArea.placeholder (model w') = TextArea.placeholder (model w) /\
    TextArea.title (model w') = TextArea.title (model w) /\
    TextArea.name (model w') = TextArea.name (model w) /\
    TextArea.disabled (model w') = TextArea.disabled (model w) /\
    TextArea.id (model w') = TextArea.id (model w) /\
    model w' = TextArea.with_value (Dom.value e) (model w).
Proof.
  intros Hel Hin He.
  destruct (change_input_post notifies w n e Hel Hin He)
    as (w' & k & Hrun & Hm & _).
  exists w'. split; [done |]. rewrite Hm. by repeat split.
Qed.

(** C10: [render] leaves the model as it found it; it also leaves the
    view's root reference and connections alone, and of the nodes that
    existed it rewrites only the root element. *)
Theorem render_frame (w : World) :
  el_ok w ->
  exists w' : World,
    render w = Ok (tt, w') /\
    model w' = model w /\
    el w' = el w /\
    slots w' = slots w /\
    forall n : nat,
      n <> el w -> is_Some (heap w !! n) -> heap w' !! n = heap w !! n.
Proof.
  intros [root Hroot].
  destruct (render_Ok w root Hroot) as (l & t & Hl & Ht & Hlt & Hr).
  exists (rendered w root l t). split; [done |].
  split; [reflexivity |]. split; [reflexivity |]. split; [reflexivity |].
  intros n Hn Hsome. by apply rendered_lookup_other.
Qed.

(** * The statements above on the sample view *)

Lemma sample_el_ok : el_ok sample.
Proof. eexists. reflexivity. Defined.

Lemma sample_edited_el_ok : el_ok sample_edited.
Proof. eexists. reflexivity. Defined.


Lemma render_builds_label_and_textarea_sample :
  exists (labelEl input : nat) (w' : World),
    render sample = Ok (tt, w') /\
    labelEl <> input /\
    heap w' !! 0 =
      Some (Dom.mkElement "div" [] [Dom.CNode labelEl; Dom.CNode input] None []) /\
    inputEl w' = Some input.
Proof.
  destruct (render_builds_label_and_textarea sample
              (Dom.mkElement "div" [] [] None []) eq_refl)
    as (l & t & w' & Hr & _ & _ & Hlt & Hroot & _ & _ & Hin).
  exists l, t, w'. split; [exact Hr |]. split; [exact Hlt |].
  split; [exact Hroot | exact Hin].
Defined.

Lemma connect_signals_rerenders_sample :
  exists w1 w3 : World,
    connect_signals sample_edited = Ok (tt, w1) /\
    set_model_value notifies_on_change "new" w1 = Ok (tt, w3) /\
    TextArea.value (model w3) = "new" /\
    displayed w3 = Some "new".
Proof.
  destruct (connect_signals_rerenders notifies_on_change sample_edited
              sample_edited_el_ok) as (w1 & Hc & Hlater).
  pose proof Hc as Hc'. rewrite connect_signals_Ok in Hc'.
  injection Hc' as Hw1.
  destruct (Hlater w1 (rtc_refl _ w1)) as [_ Hset].
  assert (Hnotify :
    notifies_on_change (TextArea.value (model w1)) "new" = true).
  { rewrite <- Hw1. reflexivity. }
  destruct (Hset "new" Hnotify) as (w3 & Hrun & Hv & _ & _ & Hd).
  exists w1, w3. split; [exact Hc |]. split; [exact Hrun |].
  split; [exact Hv | exact (Hd eq_refl)].
Defined.

(** C4 as first stated fails on a value with a Windows line break: the
    text-area rendered next displays another string. *)
Lemma connect_signals_rerenders_crlf :
  exists w1 w3 : World,
    connect_signals sample = Ok (tt, w1) /\
    notifies_on_change (TextArea.value (model w1)) a_crlf_b = true /\
    set_model_value notifies_on_change a_crlf_b w1 = Ok (tt, w3) /\
    TextArea.value (model w3) = a_crlf_b /\
    displayed w3 = Some a_lf_b /\
    displayed w3 <> Some a_crlf_b.
Proof.
  eexists. eexists. split; [reflexivity |]. split; [reflexivity |].
  split; [vm_compute; reflexivity |]. split; [reflexivity |].
  split; [reflexivity | discriminate].
Defined.



Lemma initialize_renders_once_sample :
  exists w0 w' : World,
    super_initialize tt sample = Ok (tt, w0) /\
    render w0 = Ok (tt, w') /\
    initialize tt sample = Ok (tt, w') /\
    trace w' = [SuperInitialize; SuperRender] /\
    shows_model w'.
Proof. exact (initialize_renders_once tt sample sample_el_ok). Defined.

Lemma render_disabled_sample :
  exists (w' : World) (input : nat) (ta : Dom.Element),
    render sample = Ok (tt, w') /\
    inputEl w' = Some input /\
    heap w' !! input = Some ta /\
    Dom.tag ta = "textarea" /\
    Dom.attr "disabled" ta = Some (Dom.ABool true) /\
    Dom.is_disabled ta = true.
Proof. exact (render_disabled sample sample_el_ok). Defined.

Lemma render_and_change_input_never_fault_sample :
  exists w1 : World,
    initialize tt sample = Ok (tt, w1) /\
    (exists w3 : World, render w1 = Ok (tt, w3)) /\
    (exists w3 : World, change_input notifies_on_change w1 = Ok (tt, w3)).
Proof.
  destruct (render_and_change_input_never_fault notifies_on_change tt sample
              sample_el_ok) as (w1 & Hinit & Hlater).
  exists w1. split; [exact Hinit |]. exact (Hlater w1 (rtc_refl _ w1)).
Defined.

Lemma change_input_frame_sample :
  exists w' : World,
    change_input notifies_on_change sample_edited = Ok (tt, w') /\
    TextArea.placeholder (model w') = "type here" /\
    TextArea.title (model w') = "Notes" /\
    TextArea.name (model w') = "notes" /\
    TextArea.disabled (model w') = true /\
    TextArea.id (model w') = "1001" /\
    model w' = TextArea.with_value "hello" sample_model.
Proof.
  exact (change_input_frame notifies_on_change sample_edited 2
           (Dom.with_edited (Some "hello") (textarea_for sample_model))
           sample_edited_el_ok eq_refl eq_refl).
Defined.

Lemma render_frame_sample :
  exists w' : World,
    render sample_edited = Ok (tt, w') /\
    model w' = sample_model /\
    el w' = 0 /\
    slots w' = [CallRender] /\
    forall n : nat,
      n <> 0 -> is_Some (heap sample_edited !! n) ->
      heap w' !! n = heap sample_edited !! n.
Proof. exact (render_frame sample_edited sample_edited_el_ok). Defined.

(** * Further properties of the view *)

(** ** [css_classes] *)

(** X1: [css_classes] keeps the classes of the base class, in their order,
    and adds the widget's class at the end and nothing else. *)
Theorem css_classes_extends_super (super_css_classes : list string) :
  super_css_classes `prefix_of` css_classes super_css_classes /\
  last (css_classes super_css_classes) = Some "bk-widget-form-group" /\
  length (css_classes super_css_classes) = S (length super_css_classes) /\
  (forall c : string,
     c ∈ css_classes super_css_classes <->
     c ∈ super_css_classes \/ c = "bk-widget-form-group").
Proof.
  unfold css_classes. split; [by eexists |].
  split; [apply last_snoc |].
  split; [rewrite length_app; cbn; lia |].
  intros c. rewrite elem_of_app, list_elem_of_singleton. done.
Qed.

(** ** Faults *)

(** X3: [change_input] on a view that has not rendered yet faults on
    [this.inputEl], whatever the host's notification policy. *)
Theorem change_input_before_render_faults
    (notifies : string -> string -> bool) (w : World) :
  inputEl w = None ->
  change_input notifies w = Fault (Unassigned "inputEl").
Proof.
  intros Hin. unfold change_input, this_inputEl.
  apply bind_Fault. erewrite bind_Ok; [| apply gets_Ok]. by rewrite Hin.
Qed.

(** ** Round trips between the model and the text-area *)

Lemma with_value_same (m : TextArea.Attrs) :
  TextArea.with_value (TextArea.value m) m = m.
Proof. by destruct m. Qed.

Lemma shows_model_input (w : World) :
  shows_model w ->
  exists t : nat,
    inputEl w = Some t /\ heap w !! t = Some (textarea_for (model w)).
Proof. intros (root & l & t & _ & _ & _ & Ht & Hin). by exists t. Qed.

(** X4: a text-area nobody typed into writes back the value it was rendered
    from, with its newlines normalised: [render] followed by [change_input]
    replaces the model's [value] by its normalised form and leaves the
    model as it was when the value holds no carriage return. *)
Theorem render_then_change_input_keeps_model
    (notifies : string -> string -> bool) (w : World) :
  el_ok w ->
  exists w1 w2 : World,
    render w = Ok (tt, w1) /\
    change_input notifies w1 = Ok (tt, w2) /\
    model w2 =
      TextArea.with_value
        (Dom.normalize_newlines (TextArea.value (model w))) (model w) /\
    (Dom.has_cr (TextArea.value (model w)) = false -> model w2 = model w).
Proof.
  intros Hel.
  destruct (render_post w Hel) as (w1 & Hr & Hm1 & _ & _ & _ & Hshow & _).
  destruct (shows_model_input w1 Hshow) as (t & Hin & Ht).
  destruct (change_input_post notifies w1 t _
              (proj1 (shows_model_view_ok w1 Hshow)) Hin Ht)
    as (w2 & k & Hrun & Hm2 & _).
  exists w1, w2. split; [done |]. split; [done |].
  rewrite Hm2, textarea_for_value, Hm1. split; [done |].
  intros Hcr. by rewrite normalize_no_cr, with_value_same.
Qed.



(** ** The [change] listener through the life of a view *)

Lemma initialize_post_shows {O : Type} (options : O) (w : World) :
  el_ok w ->
  exists w1 : World, initialize options w = Ok (tt, w1) /\ shows_model w1.
Proof.
  intros Hel.
  set (w0 := with_trace (trace w ++ [SuperInitialize]) w).
  destruct (render_post w0 Hel) as (w1 & Hr & _ & _ & _ & _ & Hshow & _).
  exists w1. split; [unfold initialize; by erewrite bind_Ok | done].
Qed.

Lemma shows_model_live (w : World) : shows_model w -> live_textarea w.
Proof.
  intros Hshow. destruct (shows_model_input w Hshow) as (t & Hin & Ht).
  by exists t, (textarea_for (model w)).
Qed.

Lemma same_dom_live (w w' : World) :
  heap w' = heap w -> inputEl w' = inputEl w ->
  live_textarea w -> live_textarea w'.
Proof.
  intros Hh Hi (n & e & Hin & He & Htag & Hls).
  exists n, e. by rewrite Hh, Hi.
Qed.

Lemma bind_ret_tt (c : M unit) (w : World) :
  bind c (fun _ => ret tt) w = c w.
Proof. unfold bind. by destruct (c w) as [[[] w'] | f]. Qed.

Section Listener.

Variable notifies : string -> string -> bool.

Lemma change_input_live (w w' : World) :
  el_ok w -> change_input notifies w = Ok (tt, w') ->
  live_textarea w -> live_textarea w'.
Proof.
  intros Hel Hrun Hlive.
  destruct (change_input_inv notifies w w' Hrun) as (n & e & Hin & He).
  destruct (change_input_post notifies w n e Hel Hin He)
    as (w'' & k & Hrun' & _ & _ & _ & _ & _ & Hsame & Hshow & _).
  rewrite Hrun in Hrun'. injection Hrun' as <-.
  destruct (decide (k = 0)) as [Hk0 | Hk0].
  - destruct (Hsame Hk0). by apply (same_dom_live w).
  - by apply shows_model_live, Hshow.
Qed.

Lemma run_listeners_live (ty : string) (ls : list (string * Dom.Listener))
    (w w' : World) :
  el_ok w -> run_listeners notifies ty ls w = Ok (tt, w') ->
  live_textarea w -> live_textarea w'.
Proof.
  revert w. induction ls as [| [ty' []] ls IH]; intros w Hel Hrun Hlive.
  - by injection Hrun as <-.
  - cbn [run_listeners run_listener] in Hrun.
    apply bind_inv in Hrun as ([] & w1 & Hfirst & Hrest).
    destruct (String.eqb ty' ty).
    + apply (IH w1); [| done | by apply (change_input_live w)].
      apply (keeps_el_ok w); [by apply (change_input_keeps notifies) | done].
    + injection Hfirst as <-. by apply (IH w).
Qed.

Lemma step_live (w w' : World) :
  el_ok w -> step notifies w w' -> live_textarea w -> live_textarea w'.
Proof.
  intros Hel Hstep Hlive. destruct Hstep as
    [w w' Hr | w w' Hc | w w' Hc | w w' n text Hin Hu | w w' n Hin Hd
    | w w' v Hs | w m | w w' He].
  - by apply shows_model_live, (render_keeps w).
  - rewrite connect_signals_Ok in Hc. injection Hc as <-.
    by apply (same_dom_live w).
  - by apply (change_input_live w).
  - destruct Hlive as (n0 & e & Hin0 & He & Htag & Hls).
    assert (n0 = n) as -> by congruence.
    rewrite (user_input_Ok n text e w He) in Hu. injection Hu as <-.
    exists n, (Dom.with_edited (Some text) e).
    split; [done |]. split; [apply lookup_insert_eq | done].
  - unfold dispatchEvent in Hd.
    apply bind_inv in Hd as (e & w1 & Hnode & Hrun).
    unfold node in Hnode. destruct (heap w !! n); [| discriminate].
    injection Hnode as <- <-. by eapply run_listeners_live.
  - destruct (set_model_value_post notifies v w Hel)
      as (w'' & k & Hs' & _ & _ & _ & _ & _ & Hsame & Hshow & _).
    rewrite Hs in Hs'. injection Hs' as <-.
    destruct (decide (k = 0)) as [Hk0 | Hk0].
    + destruct (Hsame Hk0). by apply (same_dom_live w).
    + by apply shows_model_live, Hshow.
  - by apply (same_dom_live w).
  - destruct (emit_change_post w Hel)
      as (w'' & He' & _ & _ & _ & _ & Hnil & Hshow & _).
    rewrite He in He'. injection He' as <-.
    destruct (slots w) as [| s ss] eqn:Hss.
    + by rewrite (Hnil eq_refl).
    + by apply shows_model_live, Hshow.
Qed.

Lemma life_live (w w' : World) :
  el_ok w -> rtc (step notifies) w w' -> live_textarea w -> live_textarea w'.
Proof.
  intros Hel Hlife. induction Hlife as [w | w w1 w2 Hstep _ IH]; [done |].
  intros Hlive. apply IH.
  - apply (keeps_el_ok w); [by apply (step_keeps notifies) | done].
  - by apply (step_live w).
Qed.

(** On a live text-area the [change] event is [change_input], and an event
    of any other type is nothing. *)
Lemma live_dispatchEvent (w : World) :
  live_textarea w ->
  exists n : nat,
    inputEl w = Some n /\
    dispatchEvent notifies n "change" w = change_input notifies w /\
    (forall ty : string,
       ty <> "change" -> dispatchEvent notifies n ty w = Ok (tt, w)).
Proof.
  intros (n & e & Hin & He & _ & Hls). exists n. split; [done |].
  unfold dispatchEvent. split.
  - rewrite (bind_Ok _ _ _ _ _ (node_Ok n e w He)), Hls.
    cbn [run_listeners run_listener].
    change (String.eqb "change" "change") with true. cbv iota.
    apply bind_ret_tt.
  - intros ty Hty.
    assert (Hneq : String.eqb "change" ty = false).
    { apply String.eqb_neq. congruence. }
    rewrite (bind_Ok _ _ _ _ _ (node_Ok n e w He)), Hls.
    cbn [run_listeners run_listener]. by rewrite Hneq.
Qed.

End Listener.

(** X7: at every moment of an initialized view's life, a [change] event on
    the current text-area runs [change_input] exactly once: re-rendering
    never piles listeners up on it. *)
Theorem change_event_runs_change_input_once
    (notifies : string -> string -> bool) {O : Type} (options : O)
    (w : World) :
  el_ok w ->
  exists w1 : World,
    initialize options w = Ok (tt, w1) /\
    forall w2 : World,
      rtc (step notifies) w1 w2 ->
      exists n : nat,
        inputEl w2 = Some n /\
        dispatchEvent notifies n "change" w2 = change_input notifies w2.
Proof.
  intros Hel.
  destruct (initialize_post_shows options w Hel) as (w1 & Hinit & Hshow).
  exists w1. split; [done |]. intros w2 Hlife.
  assert (Hlive : live_textarea w2).
  { apply (life_live notifies w1); [| done | by apply shows_model_live].
    apply (shows_model_view_ok w1 Hshow). }
  destruct (live_dispatchEvent notifies w2 Hlive) as (n & Hin & Hchange & _).
  by exists n.
Qed.

(** X8: the view listens to [change] only: at every moment of an
    initialized view's life, an event of any other type on the current
    text-area leaves the model, the DOM and the trace as they are. *)
Theorem other_events_change_nothing
    (notifies : string -> string -> bool) {O : Type} (options : O)
    (w : World) (ty : string) :
  el_ok w -> ty <> "change" ->
  exists w1 : World,
    initialize options w = Ok (tt, w1) /\
    forall w2 : World,
      rtc (step notifies) w1 w2 ->
      exists n : nat,
        inputEl w2 = Some n /\
        dispatchEvent notifies n ty w2 = Ok (tt, w2).
Proof.
  intros Hel Hty.
  destruct (initialize_post_shows options w Hel) as (w1 & Hinit & Hshow).
  exists w1. split; [done |]. intros w2 Hlife.
  assert (Hlive : live_textarea w2).
  { apply (life_live notifies w1); [| done | by apply shows_model_live].
    apply (shows_model_view_ok w1 Hshow). }
  destruct (live_dispatchEvent notifies w2 Hlive) as (n & Hin & _ & Hother).
  exists n. split; [done | by apply Hother].
Qed.

(** ** Connections and notifications *)

(** X9: every call of [connect_signals] adds one render to each later
    change notification: right after it, a notification calls
    [super.render] once more than there were connections before, and the
    model is untouched. *)
Theorem connect_signals_adds_a_render (w : World) :
  el_ok w ->
  exists w1 w2 : World,
    connect_signals w = Ok (tt, w1) /\
    emit_change w1 = Ok (tt, w2) /\
    model w2 = model w /\
    trace w2 =
      trace w ++
      SuperConnectSignals :: replicate (S (length (slots w))) SuperRender.
Proof.
  intros Hel.
  set (w1 := with_slots (slots w ++ [CallRender])
               (with_trace (trace w ++ [SuperConnectSignals]) w)).
  destruct (emit_change_post w1 Hel) as (w2 & Hrun & Hm & _ & _ & Ht & _).
  exists w1, w2. split; [apply connect_signals_Ok |].
  split; [done |]. split; [done |].
  rewrite Ht. unfold w1. cbn [with_slots with_trace trace slots].
  rewrite length_app, <- app_assoc. cbn [length app].
  by rewrite Nat.add_1_r.
Qed.

(** An assignment to the model's [value] while nothing is connected is
    stored and touches nothing else. *)
Lemma set_model_value_unconnected (notifies : string -> string -> bool)
    (w : World) (v : string) :
  slots w = [] ->
  set_model_value notifies v w =
  Ok (tt, with_model (TextArea.with_value v (model w))
            (with_trace (trace w ++ [PropertySet "value" v]) w)).
Proof.
  intros Hss. unfold set_model_value.
  erewrite bind_Ok; [| apply gets_Ok].
  erewrite bind_Ok; [| apply record_Ok].
  erewrite bind_Ok; [| apply modify_Ok].
  destruct (notifies _ v); [| reflexivity].
  unfold emit_change. erewrite bind_Ok; [| apply gets_Ok].
  cbn [with_model with_trace slots]. by rewrite Hss.
Qed.

(** X10: [initialize] renders but does not connect: on a view that had no
    connections, after [initialize] an assignment to the model's [value] is
    stored, but the DOM and [this.inputEl] stay as they are and the
    text-area keeps displaying the value the view was initialized with
    (newlines normalised), whatever the new value. *)
Theorem unconnected_view_goes_stale (notifies : string -> string -> bool)
    {O : Type} (options : O) (w : World) (v : string) :
  el_ok w -> slots w = [] ->
  exists w1 w2 : World,
    initialize options w = Ok (tt, w1) /\
    set_model_value notifies v w1 = Ok (tt, w2) /\
    TextArea.value (model w2) = v /\
    heap w2 = heap w1 /\ inputEl w2 = inputEl w1 /\
    displayed w2 =
      Some (Dom.normalize_newlines (TextArea.value (model w))).
Proof.
  intros Hel Hss.
  set (w0 := with_trace (trace w ++ [SuperInitialize]) w).
  destruct (render_post w0 Hel) as (w1 & Hr & Hm & _ & Hs & _ & Hshow & _).
  assert (Hss1 : slots w1 = []) by by rewrite Hs.
  eexists w1, _. split; [unfold initialize; by erewrite bind_Ok |].
  split; [by apply set_model_value_unconnected |].
  split; [reflexivity |]. split; [reflexivity |]. split; [reflexivity |].
  change (displayed w1 =
          Some (Dom.normalize_newlines (TextArea.value (model w)))).
  rewrite (shows_model_displayed w1 Hshow). by rewrite Hm.
Qed.

(** The text-area the last of a run of renders creates did not exist
    before the run. *)
Lemma run_slots_fresh (ss : list Slot) (w w' : World) :
  el_ok w -> ss <> [] -> run_slots ss w = Ok (tt, w') ->
  exists t : nat, inputEl w' = Some t /\ heap w !! t = None.
Proof.
  revert w. induction ss as [| [] ss IH]; intros w Hel Hne Hrun; [done |].
  cbn [run_slots run_slot] in Hrun.
  destruct Hel as [root Hroot].
  destruct (render_Ok w root Hroot) as (l & t & Hl & Ht & Hlt & Hr).
  rewrite (bind_Ok _ _ _ _ _ Hr) in Hrun.
  destruct ss as [| s ss'].
  - injection Hrun as <-. by exists t.
  - assert (Hel1 : el_ok (rendered w root l t)).
    { unfold el_ok. cbn [rendered el]. rewrite rendered_lookup_el. by eexists. }
    destruct (IH _ Hel1 ltac:(done) Hrun) as (t' & Hin & Hfresh).
    exists t'. split; [done |].
    destruct (heap w !! t') as [e |] eqn:He; [| done].
    assert (Hsome : is_Some (heap (rendered w root l t) !! t')).
    { apply rendered_keeps_nodes;
        first [assumption | by rewrite He]. }
    rewrite Hfresh in Hsome. by destruct Hsome.
Qed.

Lemma set_model_value_fresh (notifies : string -> string -> bool)
    (v : string) (w w' : World) :
  el_ok w -> notifies (TextArea.value (model w)) v = true -> slots w <> [] ->
  set_model_value notifies v w = Ok (tt, w') ->
  exists t : nat, inputEl w' = Some t /\ heap w !! t = None.
Proof.
  intros Hel Hnotify Hss Hset. unfold set_model_value in Hset.
  apply bind_inv in Hset as (old & w1 & Hget & Hset). injection Hget as <- <-.
  apply bind_inv in Hset as ([] & w1 & Hrec & Hset). injection Hrec as <-.
  apply bind_inv in Hset as ([] & w2 & Hmod & Hset). injection Hmod as <-.
  rewrite Hnotify in Hset. unfold emit_change in Hset.
  apply bind_inv in Hset as (ss & w3 & Hget & Hset). injection Hget as <- <-.
  match type of Hset with
  | run_slots _ ?W = _ => exact (run_slots_fresh (slots w) W w' Hel Hss Hset)
  end.
Qed.

(** X11: when the host notifies and the view is connected, writing back
    replaces the text-area: after [change_input], [this.inputEl] is a node
    that did not exist before, built from the updated model and not yet
    typed into. *)
Theorem change_input_replaces_textarea
    (notifies : string -> string -> bool) (w : World) (n : nat)
    (e : Dom.Element) :
  el_ok w -> inputEl w = Some n -> heap w !! n = Some e ->
  notifies (TextArea.value (model w)) (Dom.value e) = true ->
  slots w <> [] ->
  exists (w' : World) (n' : nat),
    change_input notifies w = Ok (tt, w') /\
    inputEl w' = Some n' /\ n' <> n /\ heap w !! n' = None /\
    heap w' !! n' = Some (textarea_for (model w')) /\
    TextArea.value (model w') = Dom.value e.
Proof.
  intros Hel Hin He Hnotify Hss.
  destruct (change_input_post notifies w n e Hel Hin He)
    as (w' & k & Hrun & Hm & _ & _ & _ & Hk & _ & Hshow & _).
  rewrite Hnotify in Hk.
  assert (Hk0 : k <> 0).
  { rewrite Hk. destruct (slots w); [done | discriminate]. }
  destruct (shows_model_input w' (Hshow Hk0)) as (t & Hin' & Ht').
  pose proof Hrun as Hinv. unfold change_input, this_inputEl in Hinv.
  apply bind_inv in Hinv as (n0 & w0 & Hthis & Hinv).
  apply bind_inv in Hthis as (r & w0' & Hget & Hthis).
  injection Hget as <- <-. rewrite Hin in Hthis. injection Hthis as <- <-.
  apply bind_inv in Hinv as (e0 & w0 & Hnode & Hinv).
  rewrite (node_Ok n e w He) in Hnode. injection Hnode as <- <-.
  apply bind_inv in Hinv as ([] & w1 & Hlog & Hinv). injection Hlog as <-.
  apply bind_inv in Hinv as ([] & w2 & Hset & Hhook). injection Hhook as <-.
  assert (Hnew : exists t' : nat, inputEl w2 = Some t' /\ heap w !! t' = None).
  { match type of Hset with
    | set_model_value _ _ ?W = _ =>
        exact (set_model_value_fresh notifies (Dom.value e) W w2
                 Hel Hnotify Hss Hset)
    end. }
  destruct Hnew as (t' & Hin2 & Hfresh).
  cbn [with_trace inputEl heap] in Hin', Hfresh.
  assert (t' = t) as -> by congruence.
  exists (with_trace (trace w2 ++ [SuperChangeInput]) w2), t.
  split; [exact Hrun |]. split; [done |].
  split; [intros ->; congruence |]. split; [done |].
  split; [done | by rewrite Hm].
Qed.

(** X12: when the host does not notify, or nothing is connected, writing
    back leaves the DOM alone: [change_input] changes the model's [value]
    and makes exactly three calls into the host (the log, the property
    setter and the base class's hook), and [this.inputEl] is the node it
    was. *)
Theorem change_input_leaves_dom
    (notifies : string -> string -> bool) (w : World) (n : nat)
    (e : Dom.Element) :
  el_ok w -> inputEl w = Some n -> heap w !! n = Some e ->
  notifies (TextArea.value (model w)) (Dom.value e) = false \/ slots w = [] ->
  exists w' : World,
    change_input notifies w = Ok (tt, w') /\
    heap w' = heap w /\ inputEl w' = Some n /\
    trace w' =
      trace w ++
      [LoggerDebug ("widget/textarea: value = " +:+ Dom.value e);
       PropertySet "value" (Dom.value e);
       SuperChangeInput].
Proof.
  intros Hel Hin He Hquiet.
  destruct (change_input_post notifies w n e Hel Hin He)
    as (w' & k & Hrun & _ & _ & _ & Ht & Hk & Hsame & _).
  assert (Hk0 : k = 0).
  { rewrite Hk. destruct Hquiet as [-> | ->]; [done |].
    by destruct (notifies _ _). }
  destruct (Hsame Hk0) as [Hheap Hinput]. clear Hk.
  rewrite Hk0 in Ht.
  exists w'. split; [done |]. split; [done |]. split; [congruence |].
  rewrite Ht. reflexivity.
Qed.

(** ** Invariants of a view's life *)

(** X13: whatever happens to a view, its root element stays the same node
    and stays in place, no node disappears, and once the render slot is
    connected it stays connected: the view has no way to disconnect. *)
Theorem life_keeps_root_and_connection
    (notifies : string -> string -> bool) (w w' : World) :
  el_ok w -> rtc (step notifies) w w' ->
  el w' = el w /\ el_ok w' /\
  (forall n : nat, is_Some (heap w !! n) -> is_Some (heap w' !! n)) /\
  (CallRender ∈ slots w -> CallRender ∈ slots w').
Proof.
  intros Hel Hlife.
  pose proof (life_keeps notifies w w' Hel Hlife) as Hk.
  pose proof (keeps_el_ok w w' Hk Hel) as Hel'.
  destruct Hk as (He & Hn & _ & Hs).
  split; [done |]. split; [done |]. split; [done | apply Hs].
Qed.

(** *** The trace of host calls *)

Lemma count_app (p : Event -> bool) (t1 t2 : list Event) :
  count p (t1 ++ t2) = count p t1 + count p t2.
Proof. unfold count. by rewrite List.filter_app, length_app. Qed.

Lemma count_renders (p : Event -> bool) (k : nat) :
  p SuperRender = false -> count p (replicate k SuperRender) = 0.
Proof.
  intros Hp. induction k as [| k IH]; [done |].
  unfold count in *. cbn. by rewrite Hp.
Qed.

Lemma adds_nothing (w w' : World) : trace w' = trace w -> adds 0 0 w w'.
Proof. intros Ht. exists []. by rewrite app_nil_r. Qed.

Lemma adds_trans (l1 h1 l2 h2 : nat) (w1 w2 w3 : World) :
  adds l1 h1 w1 w2 -> adds l2 h2 w2 w3 -> adds (l1 + l2) (h1 + h2) w1 w3.
Proof.
  intros (d1 & Ht1 & Hl1 & Hh1) (d2 & Ht2 & Hl2 & Hh2). exists (d1 ++ d2).
  split; [by rewrite Ht2, Ht1, <- app_assoc |].
  rewrite !count_app. lia.
Qed.

Lemma adds_renders (w w' : World) (k : nat) :
  trace w' = trace w ++ replicate k SuperRender -> adds 0 0 w w'.
Proof.
  intros Ht. exists (replicate k SuperRender). split; [done |].
  by rewrite !count_renders.
Qed.

Section Trace.

Variable notifies : string -> string -> bool.

(** A run of [change_input] logs once and calls the hook once. *)
Lemma change_input_adds (w w' : World) :
  el_ok w -> change_input notifies w = Ok (tt, w') -> adds 1 1 w w'.
Proof.
  intros Hel Hrun.
  destruct (change_input_inv notifies w w' Hrun) as (n & e & Hin & He).
  destruct (change_input_post notifies w n e Hel Hin He)
    as (w'' & k & Hrun' & _ & _ & _ & Ht & _).
  rewrite Hrun in Hrun'. injection Hrun' as <-.
  eexists. split; [exact Ht |].
  rewrite !count_app, !count_renders by done. by split.
Qed.

Lemma quiet_step (w w' : World) : quiet notifies w w' -> step notifies w w'.
Proof.
  intros []; [by apply step_render | by apply step_connect_signals
    | by eapply step_user_input | by eapply step_set_value
    | apply step_store | by apply step_emit_change].
Qed.

(** Nothing else logs or calls the hook. *)
Lemma quiet_adds (w w' : World) :
  el_ok w -> quiet notifies w w' -> adds 0 0 w w'.
Proof.
  intros Hel Hq. destruct Hq as
    [w w' Hr | w w' Hc | w w' n text Hin Hu | w w' v Hs | w m | w w' He].
  - destruct (render_post w Hel) as (w'' & Hr' & _ & _ & _ & Ht & _).
    rewrite Hr in Hr'. injection Hr' as <-.
    by apply (adds_renders w w' 1).
  - rewrite connect_signals_Ok in Hc. injection Hc as <-.
    by exists [SuperConnectSignals].
  - unfold user_input, update_node in Hu.
    apply bind_inv in Hu as (e & w1 & Hnode & Hmod).
    unfold node in Hnode. destruct (heap w !! n); [| discriminate].
    injection Hnode as <- <-. injection Hmod as <-. by apply adds_nothing.
  - destruct (set_model_value_post notifies v w Hel)
      as (w'' & k & Hs' & _ & _ & _ & Ht & _).
    rewrite Hs in Hs'. injection Hs' as <-.
    eexists. split; [exact Ht |].
    change (PropertySet "value" v :: replicate k SuperRender)
      with ([PropertySet "value" v] ++ replicate k SuperRender).
    rewrite !count_app, !count_renders by done. by split.
  - by apply adds_nothing.
  - destruct (emit_change_post w Hel) as (w'' & He' & _ & _ & _ & Ht & _).
    rewrite He in He'. injection He' as <-.
    by apply (adds_renders w w' (length (slots w))).
Qed.

End Trace.

(** X14: in a stretch of a view's life in which [change_input] runs [k]
    times, among whatever else happens, the trace of host calls grows by
    exactly [k] logged values and exactly [k] calls of the base class's
    "value changed" hook: each run logs once and calls the hook once, and
    nothing else does either. *)
Theorem life_counts_write_backs (notifies : string -> string -> bool)
    (k : nat) (w w' : World) :
  el_ok w -> life notifies k w w' ->
  exists d : list Event,
    trace w' = trace w ++ d /\
    count is_log d = k /\
    count is_hook d = k.
Proof.
  intros Hel Hlife. change (adds k k w w').
  induction Hlife as [w | k w w1 w2 Hrun _ IH | k w w1 w2 Hq _ IH].
  - by apply adds_nothing.
  - apply (adds_trans 1 1 k k w w1);
      [by apply (change_input_adds notifies) |].
    apply IH. apply (keeps_el_ok w); [| done].
    by apply (change_input_keeps notifies).
  - apply (adds_trans 0 0 k k w w1); [by apply (quiet_adds notifies) |].
    apply IH. apply (keeps_el_ok w); [| done].
    by apply (step_keeps notifies), quiet_step.
Qed.

(** ** Keystrokes *)


(** * The further properties on the sample view *)

Lemma change_input_before_render_faults_sample :
  change_input notifies_on_change sample = Fault (Unassigned "inputEl").
Proof.
  exact (change_input_before_render_faults notifies_on_change sample eq_refl).
Defined.

Lemma render_then_change_input_keeps_model_sample :
  exists w1 w2 : World,
    render sample = Ok (tt, w1) /\
    change_input notifies_on_change w1 = Ok (tt, w2) /\
    model w2 = sample_model.
Proof.
  destruct (render_then_change_input_keeps_model notifies_on_change sample
              sample_el_ok) as (w1 & w2 & Hr & Hrun & _ & Hsame).
  exists w1, w2. split; [exact Hr |]. split; [exact Hrun |].
  exact (Hsame eq_refl).
Defined.




Lemma change_event_runs_change_input_once_sample :
  exists (w1 : World) (n : nat),
    initialize tt sample = Ok (tt, w1) /\
    inputEl w1 = Some n /\
    dispatchEvent notifies_on_change n "change" w1 =
    change_input notifies_on_change w1.
Proof.
  destruct (change_event_runs_change_input_once notifies_on_change tt sample
              sample_el_ok) as (w1 & Hinit & Hlater).
  destruct (Hlater w1 (rtc_refl _ w1)) as (n & Hin & Hd).
  exists w1, n. split; [exact Hinit |]. split; [exact Hin | exact Hd].
Defined.

Lemma input_is_not_change : "input" <> "change".
Proof. discriminate. Defined.

Lemma other_events_change_nothing_sample :
  exists (w1 : World) (n : nat),
    initialize tt sample = Ok (tt, w1) /\
    inputEl w1 = Some n /\
    dispatchEvent notifies_on_change n "input" w1 = Ok (tt, w1).
Proof.
  destruct (other_events_change_nothing notifies_on_change tt sample "input"
              sample_el_ok input_is_not_change) as (w1 & Hinit & Hlater).
  destruct (Hlater w1 (rtc_refl _ w1)) as (n & Hin & Hd).
  exists w1, n. split; [exact Hinit |]. split; [exact Hin | exact Hd].
Defined.

Lemma connect_signals_adds_a_render_sample :
  exists w1 w2 : World,
    connect_signals sample_edited = Ok (tt, w1) /\
    emit_change w1 = Ok (tt, w2) /\
    model w2 = sample_model /\
    trace w2 =
      [SuperInitialize; SuperRender; SuperConnectSignals;
       SuperConnectSignals; SuperRender; SuperRender].
Proof.
  exact (connect_signals_adds_a_render sample_edited sample_edited_el_ok).
Defined.

Lemma unconnected_view_goes_stale_sample :
  exists w1 w2 : World,
    initialize tt sample = Ok (tt, w1) /\
    set_model_value notifies_on_change "new" w1 = Ok (tt, w2) /\
    TextArea.value (model w2) = "new" /\
    heap w2 = heap w1 /\ inputEl w2 = inputEl w1 /\
    displayed w2 = Some "abc".
Proof.
  exact (unconnected_view_goes_stale notifies_on_change tt sample "new"
           sample_el_ok eq_refl).
Defined.

Lemma sample_edited_connected : slots sample_edited <> [].
Proof. discriminate. Defined.

Lemma change_input_replaces_textarea_sample :
  exists (w' : World) (n' : nat),
    change_input notifies_on_change sample_edited = Ok (tt, w') /\
    inputEl w' = Some n' /\ n' <> 2 /\
    heap sample_edited !! n' = None /\
    heap w' !! n' = Some (textarea_for (model w')) /\
    TextArea.value (model w') = "hello".
Proof.
  exact (change_input_replaces_textarea notifies_on_change sample_edited 2
           (Dom.with_edited (Some "hello") (textarea_for sample_model))
           sample_edited_el_ok eq_refl eq_refl eq_refl
           sample_edited_connected).
Defined.

Lemma change_input_leaves_dom_sample :
  exists w' : World,
    change_input (fun _ _ => false) sample_edited = Ok (tt, w') /\
    heap w' = heap sample_edited /\ inputEl w' = Some 2 /\
    trace w' =
      [SuperInitialize; SuperRender; SuperConnectSignals;
       LoggerDebug "widget/textarea: value = hello";
       PropertySet "value" "hello";
       SuperChangeInput].
Proof.
  exact (change_input_leaves_dom (fun _ _ => false) sample_edited 2
           (Dom.with_edited (Some "hello") (textarea_for sample_model))
           sample_edited_el_ok eq_refl eq_refl (or_introl eq_refl)).
Defined.

Lemma sample_edited_has_render_slot : CallRender ∈ slots sample_edited.
Proof. apply list_elem_of_here. Defined.

Lemma life_keeps_root_and_connection_sample :
  exists w' : World,
    change_input notifies_on_change sample_edited = Ok (tt, w') /\
    el w' = 0 /\ el_ok w' /\ CallRender ∈ slots w'.
Proof.
  destruct (change_input_post notifies_on_change sample_edited 2
              (Dom.with_edited (Some "hello") (textarea_for sample_model))
              sample_edited_el_ok eq_refl eq_refl) as (w' & k & Hrun & _).
  destruct (life_keeps_root_and_connection notifies_on_change
              sample_edited w' sample_edited_el_ok
              (rtc_once _ _ (step_change_input _ _ _ Hrun)))
    as (Hel & Hok & _ & Hs).
  exists w'. split; [exact Hrun |]. split; [exact Hel |].
  split; [exact Hok | exact (Hs sample_edited_has_render_slot)].
Defined.

Lemma life_counts_write_backs_sample :
  exists (w1 w2 : World) (d : list Event),
    user_input 2 "draft" sample_edited = Ok (tt, w1) /\
    change_input notifies_on_change w1 = Ok (tt, w2) /\
    trace w2 = trace sample_edited ++ d /\
    count is_log d = 1 /\
    count is_hook d = 1.
Proof.
  pose proof (user_input_Ok 2 "draft"
                (Dom.with_edited (Some "hello") (textarea_for sample_model))
                sample_edited eq_refl) as Hu.
  set (w1 := with_heap _ sample_edited) in Hu.
  destruct (change_input_post notifies_on_change w1 2
              (Dom.with_edited (Some "draft") (textarea_for sample_model))
              sample_edited_el_ok eq_refl eq_refl) as (w2 & k & Hrun & _).
  destruct (life_counts_write_backs notifies_on_change 1 sample_edited w2
              sample_edited_el_ok
              (life_quiet notifies_on_change 1 sample_edited w1 w2
                 (quiet_user_input notifies_on_change sample_edited w1
                    2 "draft" eq_refl Hu)
                 (life_write_back notifies_on_change 0 w1 w2 w2 Hrun
                    (life_done notifies_on_change w2))))
    as (d & Ht & Hl & Hh).
  exists w1, w2, d. split; [exact Hu |]. split; [exact Hrun |].
  split; [exact Ht |]. split; [exact Hl | exact Hh].
Defined.


